(** * calculate_network_order.py: the three-phase ordering pipeline

    A shallow embedding of [src/bin/calculate_network_order.py].  The script
    only builds argument lists, creates two directories and launches child
    processes, so its whole behaviour is an effect on the world.  The world
    is modelled explicitly: a file system, the child processes the script
    launches (a parameter: they are opaque executables), and a log of what
    the script did, in the order it did it. *)

From Stdlib Require Import ZArith Ascii String.
From stdpp Require Import gmap strings list.

(** ** The world the script runs in *)

(** What a path names.  [os.path.exists] does not tell the two apart. *)
Inductive node : Type := Dir | File.

(** The operating-system errors that matter here. *)
Inductive errno : Type := EEXIST | ENOENT | ENOTDIR | EACCES | EROFS | ENOEXEC.

(** The uncaught Python exceptions of the script: an out-of-range index
    into [sys.argv], or an [OSError] raised by [os.mkdir] or by
    [subprocess.run] when the child cannot be started. *)
Inductive exn : Type :=
| IndexError
| OSError (e : errno) (path : string).

Inductive Result (A : Type) : Type :=
| Ok (a : A)
| Raise (e : exn).
Arguments Ok {A} a.
Arguments Raise {A} e.

(** What launching a child does: it runs to completion, leaving a return
    code and a file system, or it cannot be started and [subprocess.run]
    raises. *)
Inductive run_result : Type :=
| Exited (returncode : Z) (fs' : gmap string node)
| CannotLaunch (e : errno).

(** The part of the world the script does not control: the executables
    ([spawn]) and the reasons, other than the path being taken, for which
    the kernel refuses to create a directory ([mkdir_refused]: a missing
    parent, a parent that is a file, permissions, a read-only disk). *)
Record Env : Type := {
  spawn : list string -> gmap string node -> run_result;
  mkdir_refused : gmap string node -> string -> option errno
}.

(** The observable actions, in program order. *)
Inductive event : Type :=
| EPrint (line : string)
| EMkdir (path : string)
| EExec (args : list string)
| EExit (returncode : Z).

Record State : Type := {
  fs : gmap string node;
  log : list event
}.

Definition emit (evs : list event) (s : State) : State :=
  {| fs := fs s; log := log s ++ evs |}.

(** ** State and exception monad *)

Definition M (A : Type) : Type := State -> Result A * State.

Definition ret {A} (a : A) : M A := fun s => (Ok a, s).

Definition raise {A} (e : exn) : M A := fun s => (Raise e, s).

Definition bind {A B} (m : M A) (k : A -> M B) : M B :=
  fun s =>
    match m s with
    | (Ok a, s') => k a s'
    | (Raise e, s') => (Raise e, s')
    end.

Declare Scope py_scope.
Delimit Scope py_scope with py.
Notation "x <- m ;; k" := (bind m (fun x => k))
  (at level 100, m at next level, right associativity) : py_scope.
Notation "m ;; k" := (bind m (fun _ => k))
  (at level 100, right associativity) : py_scope.
Local Open Scope py_scope.

(** [for x in xs: body(x)] *)
Fixpoint for_each {A} (xs : list A) (body : A -> M unit) : M unit :=
  match xs with
  | [] => ret tt
  | x :: xs' => body x ;; for_each xs' body
  end.

(** ** The library calls of the script *)

Section Script.

Context (env : Env).

(** [os.path.exists(p)] *)
Definition os_path_exists (p : string) : M bool :=
  fun s => (Ok (bool_decide (is_Some (fs s !! p))), s).

(** [os.mkdir(p)]: fails when the path is taken (by anything) or when
    the kernel refuses; otherwise the directory is there afterwards. *)
Definition os_mkdir (p : string) : M unit :=
  fun s =>
    let s1 := emit [EMkdir p] s in
    match fs s !! p with
    | Some _ => (Raise (OSError EEXIST p), s1)
    | None =>
        match mkdir_refused env (fs s) p with
        | Some e => (Raise (OSError e p), s1)
        | None => (Ok tt, {| fs := <[p := Dir]> (fs s); log := log s1 |})
        end
    end.

(** [print(x, *args)]: the arguments separated by one space. *)
Definition print (items : list string) : M unit :=
  fun s => (Ok tt, emit [EPrint (String.concat " " items)] s).

(** [subprocess.run(args)], without [check=True]: blocks until the child
    has exited and returns its return code, whatever it is; raises only
    when the child cannot be started. *)
Definition subprocess_run (args : list string) : M Z :=
  fun s =>
    match spawn env args (fs s) with
    | Exited rc fs' =>
        (Ok rc, {| fs := fs'; log := log s ++ [EExec args; EExit rc] |})
    | CannotLaunch e =>
        (Raise (OSError e (hd "" args)), emit [EExec args] s)
    end.

(** [sys.argv[i]] *)
Definition argv_at (argv : list string) (i : nat) : M string :=
  match argv !! i with
  | Some a => ret a
  | None => raise IndexError
  end.

(** ** The script *)

(** Lines 38-40. *)
Definition call_subprocess (args : list string) : M unit :=
  print ("Call process: " :: args) ;;
  subprocess_run args ;;
  ret tt.

(** Lines 5-16. *)
Definition convert_network_into_binary
    (inertial_flow_path data_path file : string) : M unit :=
  let args := [inertial_flow_path +:+ "/build/console"] in
  let args := args ++ ["text_to_binary_vector"] in
  let args := args ++ [(data_path +:+ "/") +:+ file] in
  present <- os_path_exists (data_path +:+ "/binary") ;;
  (if negb present then os_mkdir (data_path +:+ "/binary") else ret tt) ;;
  let args := args ++ [(data_path +:+ "/binary/") +:+ file] in
  call_subprocess args.

(** Lines 18-28. *)
Definition compute_ordering
    (inertial_flow_path data_path file : string) : M unit :=
  let args := ["python3"] in
  let args := args ++ [inertial_flow_path +:+ "/inertialflowcutter_order.py"] in
  let args := args ++ [data_path +:+ "/binary/"] in
  present <- os_path_exists (data_path +:+ "/ordering") ;;
  (if negb present then os_mkdir (data_path +:+ "/ordering") else ret tt) ;;
  let args := args ++ [((data_path +:+ "/ordering/") +:+ file) +:+ "_bin"] in
  call_subprocess args.

(** Lines 30-36. *)
Definition convert_ordering_into_text
    (inertial_flow_path data_path file : string) : M unit :=
  let args := [inertial_flow_path +:+ "/build/console"] in
  let args := args ++ ["binary_to_text_vector"] in
  let args := args ++ [((data_path +:+ "/ordering/") +:+ file) +:+ "_bin"] in
  let args := args ++ [(data_path +:+ "/ordering/") +:+ file] in
  call_subprocess args.

(** The attribute files of phase 1, line 44. *)
Definition attribute_files : list string :=
  ["head"; "travel_time"; "first_out"; "latitude"; "longitude"].

(** Lines 42-49.  The arguments of each call are evaluated left to right,
    at the call. *)
Definition main (argv : list string) : M unit :=
  for_each attribute_files (fun f =>
    a1 <- argv_at argv 1 ;;
    a2 <- argv_at argv 2 ;;
    convert_network_into_binary a1 a2 f) ;;
  (a1 <- argv_at argv 1 ;;
   a2 <- argv_at argv 2 ;;
   a3 <- argv_at argv 3 ;;
   compute_ordering a1 a2 a3) ;;
  (a1 <- argv_at argv 1 ;;
   a2 <- argv_at argv 2 ;;
   a3 <- argv_at argv 3 ;;
   convert_ordering_into_text a1 a2 a3).

End Script.

(** Lines 11-12 and 23-24 on their own: create the directory unless the
    path exists.  [convert_network_into_binary] and [compute_ordering]
    have this block inline; see [convert_network_into_binary_ensure] and
    [compute_ordering_ensure]. *)
Definition ensure_dir (env : Env) (p : string) : M unit :=
  present <- os_path_exists p ;;
  if negb present then os_mkdir env p else ret tt.

(** ** What the specification expects to be launched *)

(** The converter invocation in the specification's words:
    [[executable, mode, source, destination]]. *)
Definition spec_converter_invocation
    (converter mode source destination : string) : list string :=
  [converter; mode; source; destination].

(** The ordering invocation in the specification's words: the interpreter,
    the ordering script, the binary directory, the destination. *)
Definition spec_ordering_invocation
    (interpreter script binary_dir destination : string) : list string :=
  [interpreter; script; binary_dir; destination].

Definition phase1_call (p d n : string) : list string :=
  spec_converter_invocation
    (p +:+ "/build/console") "text_to_binary_vector"
    ((d +:+ "/") +:+ n) ((d +:+ "/binary/") +:+ n).

Definition phase2_call (p d g : string) : list string :=
  spec_ordering_invocation
    "python3" (p +:+ "/inertialflowcutter_order.py")
    (d +:+ "/binary/") (((d +:+ "/ordering/") +:+ g) +:+ "_bin").

Definition phase3_call (p d g : string) : list string :=
  spec_converter_invocation
    (p +:+ "/build/console") "binary_to_text_vector"
    (((d +:+ "/ordering/") +:+ g) +:+ "_bin") ((d +:+ "/ordering/") +:+ g).

(** ** Reading the log *)

(** The life of the child processes as the script sees it: a child is
    invoked, and later it has returned. *)
Inductive step : Type :=
| Invoked (args : list string)
| Returned.

Fixpoint child_trace (evs : list event) : list step :=
  match evs with
  | [] => []
  | EExec args :: evs' => Invoked args :: child_trace evs'
  | EExit _ :: evs' => Returned :: child_trace evs'
  | _ :: evs' => child_trace evs'
  end.

(** A blocking call: invoked, then returned. *)
Definition blocking (call : list string) : list step :=
  [Invoked call; Returned].

Definition phase1_schedule (p d : string) : list step :=
  concat (map (fun n => blocking (phase1_call p d n)) attribute_files).

Definition schedule (p d g : string) : list step :=
  phase1_schedule p d ++ blocking (phase2_call p d g)
                      ++ blocking (phase3_call p d g).

(** The directories the script asked the kernel to create. *)
Fixpoint mkdirs (evs : list event) : list string :=
  match evs with
  | [] => []
  | EMkdir p :: evs' => p :: mkdirs evs'
  | _ :: evs' => mkdirs evs'
  end.

(** The argument lists the script handed to [subprocess.run]. *)
Fixpoint launches (evs : list event) : list (list string) :=
  match evs with
  | [] => []
  | EExec args :: evs' => args :: launches evs'
  | _ :: evs' => launches evs'
  end.

(** The destination of an invocation: its fourth element. *)
Definition destination (args : list string) : option string := args !! 3%nat.

(** Replace the return codes of every child by [f]'s. *)
Definition with_returncodes (f : list string -> Z -> Z) (env : Env) : Env :=
  {| spawn := fun args fs0 =>
       match spawn env args fs0 with
       | Exited rc fs' => Exited (f args rc) fs'
       | CannotLaunch e => CannotLaunch e
       end;
     mkdir_refused := mkdir_refused env |}.

(** ** Concrete worlds *)

Module Worlds.

(** A stub for both tools: it copies its input to its destination, and
    fails loudly, with return code 1, when its source is absent.  The
    ordering tool reads a directory. *)
Definition copy_tool (args : list string) (fs0 : gmap string node) : run_result :=
  match args with
  | [exe; a; b; dst] =>
      if decide (exe = "python3")
      then Exited 0 (<[dst := File]> fs0)
      else match fs0 !! b with
           | Some _ => Exited 0 (<[dst := File]> fs0)
           | None => Exited 1 fs0
           end
  | _ => Exited 2 fs0
  end.

(** Every tool present, every directory creation allowed. *)
Definition stubbed : Env :=
  {| spawn := copy_tool; mkdir_refused := fun _ _ => None |}.

(** No tool installed: nothing can be launched. *)
Definition no_tools : Env :=
  {| spawn := fun _ _ => CannotLaunch ENOENT; mkdir_refused := fun _ _ => None |}.

(** A data directory in which nothing may be created. *)
Definition read_only : Env :=
  {| spawn := copy_tool; mkdir_refused := fun _ _ => Some EACCES |}.

(** A world in which [ordering] cannot be created, but [binary] can. *)
Definition ordering_refused : Env :=
  {| spawn := copy_tool;
     mkdir_refused := fun _ q =>
       if decide (q = "/graph/ordering") then Some EACCES else None |}.

Definition graph_files (names : list string) : gmap string node :=
  list_to_map (("/graph", Dir) :: map (fun n => ("/graph/" +:+ n, File)) names).

(** All five attribute files present. *)
Definition complete : State :=
  {| fs := graph_files attribute_files; log := [] |}.

(** [head] is missing. *)
Definition no_head : State :=
  {| fs := graph_files ["travel_time"; "first_out"; "latitude"; "longitude"];
     log := [] |}.

(** [/graph/binary] is taken by a regular file. *)
Definition binary_is_a_file : State :=
  {| fs := <["/graph/binary" := File]> (graph_files attribute_files); log := [] |}.

Definition argv : list string :=
  ["calculate_network_order.py"; "/tools"; "/graph"; "berlin"].

(** Tools that remove [/graph/binary] behind the script's back. *)
Definition binary_eater : Env :=
  {| spawn := fun _ fs0 => Exited 0 (delete "/graph/binary" fs0);
     mkdir_refused := fun _ _ => None |}.

(** Tools that start, exit with return code 3 and touch nothing. *)
Definition dry_run : Env :=
  {| spawn := fun _ fs0 => Exited 3 fs0; mkdir_refused := fun _ _ => None |}.

End Worlds.

(** ** Properties of computations and of logs *)

(** The last character of a string, if it has one. *)
Fixpoint last_char (s : string) : option ascii :=
  match s with
  | EmptyString => None
  | String a EmptyString => Some a
  | String _ s' => last_char s'
  end.


(** The loop of lines 44-45 once [sys.argv[1]] and [sys.argv[2]] are
    known. *)
Definition phase1 (env : Env) (p d : string) : M unit :=
  for_each attribute_files (convert_network_into_binary env p d).

(** The invocations of a schedule. *)
Fixpoint invoked (steps : list step) : list (list string) :=
  match steps with
  | [] => []
  | Invoked args :: steps' => args :: invoked steps'
  | Returned :: steps' => invoked steps'
  end.

(** [traces m Q]: from any state, [m] only appends to the log, and its
    result and the events it appended satisfy [Q]. *)
Definition traces {A} (m : M A) (Q : Result A -> list event -> Prop) : Prop :=
  forall s, exists evs, log (m s).2 = log s ++ evs /\ Q (m s).1 evs.

(** The events are on schedule: the children they show, each invoked
    after the previous one has returned, are all of [sched] when the result
    is normal, and a first part of it when it is an exception. *)
Definition on_schedule (sched : list step) {A} (r : Result A) (evs : list event)
    : Prop :=
  match r with
  | Ok _ => child_trace evs = sched
  | Raise _ => child_trace evs `prefix_of` sched
  end.

(** [follows m sched]: whatever the state, [m] stays on schedule. *)
Definition follows {A} (m : M A) (sched : list step) : Prop :=
  traces m (on_schedule sched).

(** [creates_only dirs m]: the directories [m] asks the kernel to create
    are among [dirs]. *)
Definition creates_only (dirs : list string) {A} (m : M A) : Prop :=
  traces m (fun _ evs => mkdirs evs ⊆ dirs).

(** [m] never fails on an index. *)
Definition no_index_error {A} (m : M A) : Prop :=
  forall s, (m s).1 <> Raise IndexError.

(** A world in which every tool can be started and no directory creation
    is refused. *)
Definition benign (env : Env) : Prop :=
  (forall args fs0, exists rc fs', spawn env args fs0 = Exited rc fs') /\
  (forall fs0 q, mkdir_refused env fs0 q = None).

(** [m] returns normally from every state. *)
Definition returns {A} (m : M A) : Prop := forall s, exists a, (m s).1 = Ok a.

(** A log without its return codes. *)
Definition forget_returncode (e : event) : event :=
  match e with
  | EExit _ => EExit 0
  | _ => e
  end.

(** Two states that differ at most in the return codes logged. *)
Definition alike (s1 s2 : State) : Prop :=
  fs s1 = fs s2 /\ forget_returncode <$> log s1 = forget_returncode <$> log s2.

(** Two computations that, from alike states, give the same result and
    leave alike states. *)
Definition indifferent {A} (m1 m2 : M A) : Prop :=
  forall s1 s2, alike s1 s2 -> (m1 s1).1 = (m2 s2).1 /\ alike (m1 s1).2 (m2 s2).2.




(** Tools that do not remove [q]. *)
Definition keeps (env : Env) (q : string) : Prop :=
  forall args fs0 rc fs',
    spawn env args fs0 = Exited rc fs' -> is_Some (fs0 !! q) -> is_Some (fs' !! q).



(** When the result is an [OSError], the last event is the operation that
    failed: the creation of the path the error names, or the launch of the
    executable it names. *)
Definition failure_is_last {A} (r : Result A) (evs : list event) : Prop :=
  match r with
  | Raise (OSError _ q) =>
      last evs = Some (EMkdir q) \/
      exists args, last evs = Some (EExec args) /\ hd "" args = q
  | _ => True
  end.

(** ** Strings and paths *)

Lemma string_app_cons (a : ascii) (s t : string) :
  String a s +:+ t = String a (s +:+ t).
Proof. reflexivity. Qed.

Lemma string_app_assoc (s t u : string) : (s +:+ t) +:+ u = s +:+ (t +:+ u).
Proof.
  induction s as [|a s IH]; [reflexivity|].
  rewrite !string_app_cons. by rewrite IH.
Qed.

(** Two paths below the same directory differ as soon as what follows
    the directory differs. *)
Lemma path_below_ne (d s t : string) : s <> t -> d +:+ s <> d +:+ t.
Proof. intros Hne Heq. apply Hne. by apply (inj (String.app d)). Qed.

Lemma last_char_app_cons (s : string) (a : ascii) (t : string) :
  last_char (s +:+ String a t) = last_char (String a t).
Proof.
  induction s as [|b s IH]; [reflexivity|].
  rewrite string_app_cons. cbn [last_char]. rewrite IH.
  destruct s; reflexivity.
Qed.

(** ** Running the monad *)

Lemma bind_Ok {A B} (m : M A) (k : A -> M B) s a s1 :
  m s = (Ok a, s1) -> bind m k s = k a s1.
Proof. unfold bind. by intros ->. Qed.

Lemma bind_Raise {A B} (m : M A) (k : A -> M B) s e s1 :
  m s = (Raise e, s1) -> bind m k s = (Raise e, s1).
Proof. unfold bind. by intros ->. Qed.

Lemma bind_assoc {A B C} (m : M A) (k : A -> M B) (h : B -> M C) s :
  bind (bind m k) h s = bind m (fun a => bind (k a) h) s.
Proof. unfold bind. by destruct (m s) as [[a|e] s1]. Qed.

Lemma main_three_arguments env prog p d g extra :
  main env (prog :: p :: d :: g :: extra) =
  (phase1 env p d ;;
   compute_ordering env p d g ;;
   convert_ordering_into_text env p d g).
Proof. reflexivity. Qed.

Lemma main_two_arguments env prog p d :
  main env [prog; p; d] = (phase1 env p d ;; raise IndexError).
Proof. reflexivity. Qed.

Lemma convert_network_into_binary_ensure env p d f :
  forall s,
    convert_network_into_binary env p d f s =
    (ensure_dir env (d +:+ "/binary") ;;
     call_subprocess env (phase1_call p d f)) s.
Proof.
  intros s. unfold convert_network_into_binary, ensure_dir, bind, os_path_exists.
  destruct (negb _); [|reflexivity].
  by destruct (os_mkdir env (d +:+ "/binary") s) as [[[]|e] s1].
Qed.

Lemma compute_ordering_ensure env p d g :
  forall s,
    compute_ordering env p d g s =
    (ensure_dir env (d +:+ "/ordering") ;;
     call_subprocess env (phase2_call p d g)) s.
Proof.
  intros s. unfold compute_ordering, ensure_dir, bind, os_path_exists.
  destruct (negb _); [|reflexivity].
  by destruct (os_mkdir env (d +:+ "/ordering") s) as [[[]|e] s1].
Qed.

Lemma convert_ordering_into_text_call env p d g :
  convert_ordering_into_text env p d g = call_subprocess env (phase3_call p d g).
Proof. reflexivity. Qed.

(** ** The directory block, case by case *)

Lemma ensure_dir_present env p s :
  is_Some (fs s !! p) -> ensure_dir env p s = (Ok tt, s).
Proof.
  intros Hp. unfold ensure_dir, bind, os_path_exists.
  by rewrite bool_decide_true.
Qed.

Lemma ensure_dir_absent env p s :
  fs s !! p = None -> ensure_dir env p s = os_mkdir env p s.
Proof.
  intros Hp. unfold ensure_dir, bind, os_path_exists.
  rewrite bool_decide_false; [reflexivity|].
  rewrite Hp. by intros [? ?].
Qed.

Lemma os_mkdir_refused env p s e :
  fs s !! p = None -> mkdir_refused env (fs s) p = Some e ->
  os_mkdir env p s = (Raise (OSError e p), emit [EMkdir p] s).
Proof. intros Hp He. unfold os_mkdir. by rewrite Hp, He. Qed.

Lemma os_mkdir_created env p s :
  fs s !! p = None -> mkdir_refused env (fs s) p = None ->
  os_mkdir env p s =
  (Ok tt, {| fs := <[p := Dir]> (fs s); log := log s ++ [EMkdir p] |}).
Proof. intros Hp He. unfold os_mkdir. by rewrite Hp, He. Qed.

(** ** The child process, case by case *)

Lemma call_subprocess_exited env args s rc fs' :
  spawn env args (fs s) = Exited rc fs' ->
  call_subprocess env args s =
  (Ok tt,
   {| fs := fs';
      log := log s ++ [EPrint (String.concat " " ("Call process: " :: args));
                       EExec args; EExit rc] |}).
Proof.
  intros Hrun. unfold call_subprocess, bind, print, subprocess_run, emit, ret.
  cbn [fs log]. rewrite Hrun. by rewrite <- app_assoc.
Qed.

Lemma call_subprocess_cannot_launch env args s e :
  spawn env args (fs s) = CannotLaunch e ->
  call_subprocess env args s =
  (Raise (OSError e (hd "" args)),
   {| fs := fs s;
      log := log s ++ [EPrint (String.concat " " ("Call process: " :: args));
                       EExec args] |}).
Proof.
  intros Hrun. unfold call_subprocess, bind, print, subprocess_run, emit, ret.
  cbn [fs log]. rewrite Hrun. by rewrite <- app_assoc.
Qed.

(** Split on what launching [args] from [s] does, and run
    [call_subprocess] accordingly. *)
Ltac spawn_cases env args s :=
  let Hrun := fresh "Hrun" in
  destruct (spawn env args (fs s)) as [?rc ?fs'|?e] eqn:Hrun;
  [ rewrite (call_subprocess_exited _ _ _ _ _ Hrun)
  | rewrite (call_subprocess_cannot_launch _ _ _ _ Hrun) ].

(** ** Reading the log, continued *)

Lemma child_trace_app evs1 evs2 :
  child_trace (evs1 ++ evs2) = child_trace evs1 ++ child_trace evs2.
Proof.
  induction evs1 as [|[] evs1 IH]; cbn [child_trace app]; by rewrite ?IH.
Qed.

Lemma mkdirs_app evs1 evs2 : mkdirs (evs1 ++ evs2) = mkdirs evs1 ++ mkdirs evs2.
Proof.
  induction evs1 as [|[] evs1 IH]; cbn [mkdirs app]; by rewrite ?IH.
Qed.

Lemma invoked_app l1 l2 : invoked (l1 ++ l2) = invoked l1 ++ invoked l2.
Proof.
  induction l1 as [|[] l1 IH]; cbn [invoked app]; by rewrite ?IH.
Qed.

Lemma launches_child_trace evs : launches evs = invoked (child_trace evs).
Proof.
  induction evs as [|[] evs IH]; cbn [launches child_trace invoked]; by rewrite ?IH.
Qed.

Lemma invoked_prefix l1 l2 : l1 `prefix_of` l2 -> invoked l1 `prefix_of` invoked l2.
Proof. intros [k ->]. rewrite invoked_app. by exists (invoked k). Qed.

(** ** A calculus of emitted events *)

Lemma traces_mono {A} (m : M A) (P Q : Result A -> list event -> Prop) :
  traces m P -> (forall r evs, P r evs -> Q r evs) -> traces m Q.
Proof.
  intros Hm HPQ s. destruct (Hm s) as (evs & Hlog & HP). eauto.
Qed.

Lemma traces_bind {A B} (m : M A) (k : A -> M B)
    (P : Result A -> list event -> Prop)
    (Q : A -> Result B -> list event -> Prop)
    (R : Result B -> list event -> Prop) :
  traces m P ->
  (forall a, traces (k a) (Q a)) ->
  (forall e evs, P (Raise e) evs -> R (Raise e) evs) ->
  (forall a evs1 r evs2, P (Ok a) evs1 -> Q a r evs2 -> R r (evs1 ++ evs2)) ->
  traces (bind m k) R.
Proof.
  intros Hm Hk Hraise Hok s. unfold bind.
  destruct (Hm s) as (evs1 & Hlog1 & HP).
  destruct (m s) as [[a|e] s1]; cbn [fst snd] in *.
  - destruct (Hk a s1) as (evs2 & Hlog2 & HQ).
    exists (evs1 ++ evs2). split.
    + by rewrite Hlog2, Hlog1, app_assoc.
    + eauto.
  - exists evs1. eauto.
Qed.

(** *** On schedule *)

Lemma follows_bind {A B} (m : M A) (k : A -> M B) l1 l2 l :
  follows m l1 -> (forall a, follows (k a) l2) -> l = l1 ++ l2 ->
  follows (bind m k) l.
Proof.
  intros Hm Hk ->.
  apply (traces_bind m k (on_schedule l1) (fun _ => on_schedule l2));
    [done|done|..].
  - intros e evs Hp. by apply prefix_app_r.
  - intros a evs1 [b|e] evs2 H1 H2; cbn [on_schedule] in *;
      rewrite child_trace_app, H1; [by rewrite H2 | by apply prefix_app].
Qed.

Lemma follows_ret {A} (a : A) : follows (ret a) [].
Proof. intros s. exists []. split; [by rewrite app_nil_r | reflexivity]. Qed.

Lemma follows_raise {A} e : follows (@raise A e) [].
Proof. intros s. exists []. split; [by rewrite app_nil_r | by exists []]. Qed.

Lemma follows_os_path_exists p : follows (os_path_exists p) [].
Proof. intros s. exists []. split; [by rewrite app_nil_r | reflexivity]. Qed.

Lemma follows_os_mkdir env p : follows (os_mkdir env p) [].
Proof.
  intros s. exists [EMkdir p]. unfold os_mkdir.
  destruct (fs s !! p); [split; [reflexivity | by exists []]|].
  destruct (mkdir_refused env (fs s) p);
    (split; [reflexivity | first [reflexivity | by exists []]]).
Qed.

Lemma follows_print items : follows (print items) [].
Proof. intros s. eexists. split; reflexivity. Qed.

Lemma follows_subprocess_run env args :
  follows (subprocess_run env args) (blocking args).
Proof.
  intros s. unfold subprocess_run.
  destruct (spawn env args (fs s)) as [rc fs'|e].
  - exists [EExec args; EExit rc]. split; reflexivity.
  - exists [EExec args]. split; [reflexivity|]. by exists [Returned].
Qed.

Lemma follows_call_subprocess env args :
  follows (call_subprocess env args) (blocking args).
Proof.
  unfold call_subprocess.
  eapply follows_bind; [apply follows_print | intros _ | reflexivity].
  eapply follows_bind; [apply follows_subprocess_run | intros _ | ].
  - apply follows_ret.
  - by rewrite app_nil_r.
Qed.

Lemma follows_ensure_dir env p : follows (ensure_dir env p) [].
Proof.
  unfold ensure_dir.
  eapply follows_bind; [apply follows_os_path_exists | intros b | reflexivity].
  destruct (negb b); [apply follows_os_mkdir | apply follows_ret].
Qed.

Lemma follows_ext {A} (m1 m2 : M A) l :
  (forall s, m1 s = m2 s) -> follows m2 l -> follows m1 l.
Proof. intros Heq H s. rewrite Heq. apply H. Qed.

Lemma follows_convert_network_into_binary env p d f :
  follows (convert_network_into_binary env p d f) (blocking (phase1_call p d f)).
Proof.
  eapply follows_ext; [apply convert_network_into_binary_ensure|].
  eapply follows_bind; [apply follows_ensure_dir | intros _ | reflexivity].
  apply follows_call_subprocess.
Qed.

Lemma follows_compute_ordering env p d g :
  follows (compute_ordering env p d g) (blocking (phase2_call p d g)).
Proof.
  eapply follows_ext; [apply compute_ordering_ensure|].
  eapply follows_bind; [apply follows_ensure_dir | intros _ | reflexivity].
  apply follows_call_subprocess.
Qed.

Lemma follows_convert_ordering_into_text env p d g :
  follows (convert_ordering_into_text env p d g) (blocking (phase3_call p d g)).
Proof. rewrite convert_ordering_into_text_call. apply follows_call_subprocess. Qed.

Lemma follows_for_each {A} (xs : list A) (body : A -> M unit) (sched : A -> list step) :
  (forall x, follows (body x) (sched x)) ->
  follows (for_each xs body) (concat (map sched xs)).
Proof.
  intros Hbody. induction xs as [|x xs IH]; cbn [for_each map concat].
  - apply follows_ret.
  - eapply follows_bind; [apply Hbody | intros _; apply IH | reflexivity].
Qed.

Lemma follows_phase1 env p d : follows (phase1 env p d) (phase1_schedule p d).
Proof.
  apply (follows_for_each attribute_files _ (fun n => blocking (phase1_call p d n))).
  intros n. apply follows_convert_network_into_binary.
Qed.

Lemma follows_main env prog p d g extra :
  follows (main env (prog :: p :: d :: g :: extra)) (schedule p d g).
Proof.
  rewrite main_three_arguments.
  eapply follows_bind; [apply follows_phase1 | intros _ | reflexivity].
  eapply follows_bind; [apply follows_compute_ordering | intros _ | reflexivity].
  apply follows_convert_ordering_into_text.
Qed.

Lemma string_length_app (s t : string) :
  String.length (s +:+ t) = (String.length s + String.length t)%nat.
Proof.
  induction s as [|a s IH]; [reflexivity|].
  rewrite string_app_cons. cbn [String.length]. by rewrite IH.
Qed.

(** The interpreter is not the converter, whatever the tool directory. *)
Lemma python3_not_console (p : string) : "python3" <> p +:+ "/build/console".
Proof.
  intros Heq. apply (f_equal String.length) in Heq.
  rewrite string_length_app in Heq. cbn in Heq. lia.
Qed.

Lemma phase2_call_not_phase1 p d g n : phase2_call p d g <> phase1_call p d n.
Proof. intros Heq. injection Heq as Heq _. by apply python3_not_console in Heq. Qed.

Lemma phase2_call_not_phase3 p d g : phase2_call p d g <> phase3_call p d g.
Proof. intros Heq. injection Heq as Heq _. by apply python3_not_console in Heq. Qed.

Lemma phase3_call_not_phase1 p d g n : phase3_call p d g <> phase1_call p d n.
Proof. intros Heq. injection Heq as _ Heq _. discriminate Heq. Qed.

Lemma schedule_unfold p d g :
  schedule p d g =
  [Invoked (phase1_call p d "head"); Returned;
   Invoked (phase1_call p d "travel_time"); Returned;
   Invoked (phase1_call p d "first_out"); Returned;
   Invoked (phase1_call p d "latitude"); Returned;
   Invoked (phase1_call p d "longitude"); Returned;
   Invoked (phase2_call p d g); Returned;
   Invoked (phase3_call p d g); Returned].
Proof. reflexivity. Qed.


(** In a list where [x] occurs once, what precedes an occurrence of [x] in
    a prefix is what precedes [x] in the list. *)
Lemma prefix_before_unique {A} (x : A) (l1 l2 before after : list A) :
  x ∉ l1 -> x ∉ l2 ->
  before ++ x :: after `prefix_of` l1 ++ x :: l2 ->
  before = l1.
Proof.
  intros H1 H2. revert before.
  induction l1 as [|z l1 IH]; intros [|y before] [k Hk]; cbn [app] in *.
  - reflexivity.
  - injection Hk as <- Hk. exfalso. apply H2. rewrite Hk.
    rewrite <- app_assoc. apply elem_of_app. right. by left.
  - injection Hk as <- Hk. exfalso. apply H1. by left.
  - injection Hk as <- Hk. f_equal. apply IH.
    + intros Hx. apply H1. by right.
    + by exists k.
Qed.

Lemma Invoked_inj (a b : list string) : Invoked a = Invoked b -> a = b.
Proof. intros Heq. by injection Heq. Qed.

Lemma phase2_not_in_phase1_schedule p d g :
  Invoked (phase2_call p d g) ∉ phase1_schedule p d.
Proof.
  unfold phase1_schedule, blocking. cbn [attribute_files map concat app].
  rewrite !not_elem_of_cons. repeat split; try discriminate.
  all: try (intros Heq%Invoked_inj; by apply phase2_call_not_phase1 in Heq).
  apply not_elem_of_nil.
Qed.

Lemma phase2_after_phase1 p d g before after :
  before ++ Invoked (phase2_call p d g) :: after `prefix_of` schedule p d g ->
  before = phase1_schedule p d.
Proof.
  unfold schedule, blocking. cbn [app].
  apply prefix_before_unique; [apply phase2_not_in_phase1_schedule|].
  rewrite !not_elem_of_cons. repeat split; try discriminate.
  - intros Heq%Invoked_inj. by apply phase2_call_not_phase3 in Heq.
  - apply not_elem_of_nil.
Qed.

Lemma phase3_after_phase2 p d g before after :
  before ++ Invoked (phase3_call p d g) :: after `prefix_of` schedule p d g ->
  before = phase1_schedule p d ++ blocking (phase2_call p d g).
Proof.
  unfold schedule, blocking. rewrite app_assoc. cbn [app].
  apply prefix_before_unique.
  - rewrite not_elem_of_app. split.
    + unfold phase1_schedule, blocking. cbn [attribute_files map concat app].
      rewrite !not_elem_of_cons. repeat split; try discriminate.
      all: try (intros Heq%Invoked_inj; by apply phase3_call_not_phase1 in Heq).
      apply not_elem_of_nil.
    + rewrite !not_elem_of_cons. repeat split; try discriminate.
      * intros Heq%Invoked_inj. symmetry in Heq.
        by apply phase2_call_not_phase3 in Heq.
      * apply not_elem_of_nil.
  - rewrite !not_elem_of_cons. repeat split; try discriminate. apply not_elem_of_nil.
Qed.

(** ** The claims about what is launched, and when *)

(** C5.  Phase ordering.  Whatever the tools and the file system do, the
    children the script launches, given its three arguments, are a first
    part of the fixed schedule: the five conversions in the order head,
    travel_time, first_out, latitude, longitude, then the ordering, then
    the conversion to text, each one launched after the previous one has
    returned; all of it when the script ends normally.  So the ordering is
    launched only after exactly the five conversions have returned, and the
    conversion to text only after the ordering has returned as well. *)
Theorem phases_run_in_order env prog p d g extra s :
  exists evs,
    log (main env (prog :: p :: d :: g :: extra) s).2 = log s ++ evs /\
    child_trace evs `prefix_of`
      [Invoked (phase1_call p d "head"); Returned;
       Invoked (phase1_call p d "travel_time"); Returned;
       Invoked (phase1_call p d "first_out"); Returned;
       Invoked (phase1_call p d "latitude"); Returned;
       Invoked (phase1_call p d "longitude"); Returned;
       Invoked (phase2_call p d g); Returned;
       Invoked (phase3_call p d g); Returned] /\
    ((main env (prog :: p :: d :: g :: extra) s).1 = Ok tt ->
     child_trace evs = schedule p d g) /\
    (forall before after,
       child_trace evs = before ++ Invoked (phase2_call p d g) :: after ->
       before = phase1_schedule p d) /\
    (forall before after,
       child_trace evs = before ++ Invoked (phase3_call p d g) :: after ->
       before = phase1_schedule p d ++ blocking (phase2_call p d g)).
Proof.
  destruct (follows_main env prog p d g extra s) as (evs & Hlog & Hsched).
  assert (child_trace evs `prefix_of` schedule p d g) as Hpre.
  { destruct (main env (prog :: p :: d :: g :: extra) s).1; cbn [on_schedule] in Hsched;
      [by rewrite Hsched | done]. }
  exists evs. split; [done|]. split; [by rewrite <- schedule_unfold|].
  split; [|split].
  - intros Hok. by rewrite Hok in Hsched.
  - intros before after Heq. rewrite Heq in Hpre.
    by apply phase2_after_phase1 in Hpre.
  - intros before after Heq. rewrite Heq in Hpre.
    by apply phase3_after_phase2 in Hpre.
Qed.

(** What [follows] says about the argument lists handed over. *)
Lemma follows_launches {A} (m : M A) sched s :
  follows m sched ->
  exists evs,
    log (m s).2 = log s ++ evs /\
    launches evs `prefix_of` invoked sched /\
    (forall a, (m s).1 = Ok a -> launches evs = invoked sched).
Proof.
  intros Hm. destruct (Hm s) as (evs & Hlog & Hsched).
  exists evs. split; [done|]. rewrite launches_child_trace.
  destruct (m s).1 as [a|e]; cbn [on_schedule] in Hsched.
  - rewrite Hsched. split; [reflexivity | done].
  - split; [by apply invoked_prefix | done].
Qed.

(** C3.  Argument construction.  A conversion hands to [subprocess.run]
    exactly [[converter, mode, source, destination]], in that order and
    with nothing else: the converter is [build/console] below the tool
    directory, the mode [text_to_binary_vector] in phase 1 and
    [binary_to_text_vector] in phase 3.  Each function launches at most one
    child, and exactly one when it returns normally. *)
Theorem converter_argument_lists env p d f g s :
  (exists evs,
     log (convert_network_into_binary env p d f s).2 = log s ++ evs /\
     launches evs `prefix_of`
       [spec_converter_invocation (p +:+ "/build/console")
          "text_to_binary_vector" ((d +:+ "/") +:+ f) ((d +:+ "/binary/") +:+ f)] /\
     ((convert_network_into_binary env p d f s).1 = Ok tt ->
      launches evs =
        [[p +:+ "/build/console"; "text_to_binary_vector";
          (d +:+ "/") +:+ f; (d +:+ "/binary/") +:+ f]])) /\
  (exists evs,
     log (convert_ordering_into_text env p d g s).2 = log s ++ evs /\
     launches evs =
       [spec_converter_invocation (p +:+ "/build/console")
          "binary_to_text_vector"
          (((d +:+ "/ordering/") +:+ g) +:+ "_bin") ((d +:+ "/ordering/") +:+ g)] /\
     launches evs =
       [[p +:+ "/build/console"; "binary_to_text_vector";
         ((d +:+ "/ordering/") +:+ g) +:+ "_bin"; (d +:+ "/ordering/") +:+ g]]).
Proof.
  split.
  - destruct (follows_launches _ _ s (follows_convert_network_into_binary env p d f))
      as (evs & Hlog & Hpre & Hok).
    exists evs. split; [done|]. split; [done|]. apply Hok.
  - rewrite convert_ordering_into_text_call.
    spawn_cases env (phase3_call p d g) s; eexists; by split.
Qed.

Lemma prefix_fmap {A B} (f : A -> B) (l1 l2 : list A) :
  l1 `prefix_of` l2 -> f <$> l1 `prefix_of` f <$> l2.
Proof. intros [k ->]. rewrite fmap_app. by eexists. Qed.

(** What [follows] says about the destinations handed over. *)
Lemma follows_destinations {A} (m : M A) sched s :
  follows m sched ->
  exists evs,
    log (m s).2 = log s ++ evs /\
    destination <$> launches evs `prefix_of` destination <$> invoked sched /\
    (forall a, (m s).1 = Ok a ->
       destination <$> launches evs = destination <$> invoked sched).
Proof.
  intros Hm. destruct (follows_launches m sched s Hm) as (evs & Hlog & Hpre & Hok).
  exists evs. split; [done|]. split; [by apply prefix_fmap|].
  intros a Ha. by rewrite (Hok a Ha).
Qed.

(** C4.  Path determinism.  In every world, the destination handed to the
    converter for attribute [n] is [d + "/binary/" + n], the destination
    handed to the ordering is [d + "/ordering/" + g + "_bin"], and the
    destination of the final conversion is [d + "/ordering/" + g]: the tools,
    the file system and the log have no part in them. *)
Theorem output_paths_determined env p d n g s :
  (exists evs,
     log (convert_network_into_binary env p d n s).2 = log s ++ evs /\
     destination <$> launches evs `prefix_of` [Some ((d +:+ "/binary/") +:+ n)] /\
     ((convert_network_into_binary env p d n s).1 = Ok tt ->
      destination <$> launches evs = [Some ((d +:+ "/binary/") +:+ n)])) /\
  (exists evs,
     log (compute_ordering env p d g s).2 = log s ++ evs /\
     destination <$> launches evs `prefix_of`
       [Some (((d +:+ "/ordering/") +:+ g) +:+ "_bin")] /\
     ((compute_ordering env p d g s).1 = Ok tt ->
      destination <$> launches evs =
        [Some (((d +:+ "/ordering/") +:+ g) +:+ "_bin")])) /\
  (exists evs,
     log (convert_ordering_into_text env p d g s).2 = log s ++ evs /\
     destination <$> launches evs `prefix_of` [Some ((d +:+ "/ordering/") +:+ g)] /\
     ((convert_ordering_into_text env p d g s).1 = Ok tt ->
      destination <$> launches evs = [Some ((d +:+ "/ordering/") +:+ g)])).
Proof.
  split; [|split].
  - destruct (follows_destinations _ _ s
                (follows_convert_network_into_binary env p d n))
      as (evs & Hlog & Hpre & Hok).
    exists evs. split; [done|]. split; [done|]. apply Hok.
  - destruct (follows_destinations _ _ s (follows_compute_ordering env p d g))
      as (evs & Hlog & Hpre & Hok).
    exists evs. split; [done|]. split; [done|]. apply Hok.
  - destruct (follows_destinations _ _ s
                (follows_convert_ordering_into_text env p d g))
      as (evs & Hlog & Hpre & Hok).
    exists evs. split; [done|]. split; [done|]. apply Hok.
Qed.

(** C8.  The ordering invocation.  [compute_ordering] hands to
    [subprocess.run] exactly the interpreter [python3], the script
    [inertialflowcutter_order.py] below the tool directory, the binary
    directory [d + "/binary/"] and the destination
    [d + "/ordering/" + g + "_bin"]; the binary directory ends with a
    slash, whatever [d] is.  At most one child is launched, and exactly one
    when the function returns normally. *)
Theorem ordering_argument_list env p d g s :
  exists evs,
    log (compute_ordering env p d g s).2 = log s ++ evs /\
    launches evs `prefix_of`
      [spec_ordering_invocation "python3" (p +:+ "/inertialflowcutter_order.py")
         (d +:+ "/binary/") (((d +:+ "/ordering/") +:+ g) +:+ "_bin")] /\
    ((compute_ordering env p d g s).1 = Ok tt ->
     launches evs =
       [["python3"; p +:+ "/inertialflowcutter_order.py";
         d +:+ "/binary/"; ((d +:+ "/ordering/") +:+ g) +:+ "_bin"]]) /\
    last_char (d +:+ "/binary/") = Some "/"%char.
Proof.
  destruct (follows_launches _ _ s (follows_compute_ordering env p d g))
    as (evs & Hlog & Hpre & Hok).
  exists evs. split; [done|]. split; [done|]. split; [apply Hok|].
  change "/binary/" with ("/binary" +:+ "/").
  rewrite <- string_app_assoc. apply last_char_app_cons.
Qed.

(** ** No write to the attribute files *)

Lemma creates_only_bind dirs {A B} (m : M A) (k : A -> M B) :
  creates_only dirs m -> (forall a, creates_only dirs (k a)) ->
  creates_only dirs (bind m k).
Proof.
  intros Hm Hk.
  apply (traces_bind m k (fun _ evs => mkdirs evs ⊆ dirs)
           (fun _ _ evs => mkdirs evs ⊆ dirs)); [done|done|done|].
  intros _ evs1 _ evs2 H1 H2. rewrite mkdirs_app.
  intros q [Hq|Hq]%elem_of_app; auto.
Qed.

Lemma creates_only_silent dirs {A} (m : M A) :
  (forall s, exists evs, log (m s).2 = log s ++ evs /\ mkdirs evs = []) ->
  creates_only dirs m.
Proof.
  intros Hm s. destruct (Hm s) as (evs & Hlog & Hnil).
  exists evs. split; [done|]. rewrite Hnil. apply list_subseteq_nil.
Qed.

Lemma creates_only_call_subprocess dirs env args :
  creates_only dirs (call_subprocess env args).
Proof.
  apply creates_only_silent. intros s.
  spawn_cases env args s; eexists; by split.
Qed.

Lemma creates_only_ensure_dir dirs env q :
  q ∈ dirs -> creates_only dirs (ensure_dir env q).
Proof.
  intros Hq s. destruct (fs s !! q) as [x|] eqn:Hlook.
  - rewrite ensure_dir_present by (by rewrite Hlook).
    exists []. split; [by rewrite app_nil_r | apply list_subseteq_nil].
  - rewrite ensure_dir_absent by done.
    exists [EMkdir q]. split.
    + unfold os_mkdir. rewrite Hlook. by destruct (mkdir_refused env (fs s) q).
    + intros q' ->%list_elem_of_singleton. done.
Qed.

Lemma creates_only_ext dirs {A} (m1 m2 : M A) :
  (forall s, m1 s = m2 s) -> creates_only dirs m2 -> creates_only dirs m1.
Proof. intros Heq H s. rewrite Heq. apply H. Qed.

Lemma creates_only_for_each dirs {A} (xs : list A) (body : A -> M unit) :
  (forall x, creates_only dirs (body x)) -> creates_only dirs (for_each xs body).
Proof.
  intros Hbody. induction xs as [|x xs IH]; cbn [for_each].
  - apply creates_only_silent. intros s. exists []. by rewrite app_nil_r.
  - apply creates_only_bind; [apply Hbody | intros _; apply IH].
Qed.

Lemma creates_only_main env prog p d g extra :
  creates_only [d +:+ "/binary"; d +:+ "/ordering"] (main env (prog :: p :: d :: g :: extra)).
Proof.
  rewrite main_three_arguments.
  apply creates_only_bind; [|intros _; apply creates_only_bind; [|intros _]].
  - apply creates_only_for_each. intros n.
    eapply creates_only_ext; [apply convert_network_into_binary_ensure|].
    apply creates_only_bind; [|intros _; apply creates_only_call_subprocess].
    apply creates_only_ensure_dir. by left.
  - eapply creates_only_ext; [apply compute_ordering_ensure|].
    apply creates_only_bind; [|intros _; apply creates_only_call_subprocess].
    apply creates_only_ensure_dir. right. by left.
  - rewrite convert_ordering_into_text_call. apply creates_only_call_subprocess.
Qed.





(** ** A missing third argument *)

Lemma no_index_error_bind {A B} (m : M A) (k : A -> M B) :
  no_index_error m -> (forall a, no_index_error (k a)) -> no_index_error (bind m k).
Proof.
  intros Hm Hk s. unfold bind. specialize (Hm s).
  destruct (m s) as [[a|e] s1]; [apply Hk|].
  cbn [fst] in *. intros [= ->]. by apply Hm.
Qed.

Lemma no_index_error_ext {A} (m1 m2 : M A) :
  (forall s, m1 s = m2 s) -> no_index_error m2 -> no_index_error m1.
Proof. intros Heq H s. rewrite Heq. apply H. Qed.

Lemma no_index_error_ensure_dir env q : no_index_error (ensure_dir env q).
Proof.
  intros s. destruct (fs s !! q) as [x|] eqn:Hlook.
  - by rewrite ensure_dir_present by (by rewrite Hlook).
  - rewrite ensure_dir_absent by done. unfold os_mkdir. rewrite Hlook.
    by destruct (mkdir_refused env (fs s) q).
Qed.

Lemma no_index_error_call_subprocess env args :
  no_index_error (call_subprocess env args).
Proof.
  intros s. by spawn_cases env args s.
Qed.

Lemma no_index_error_phase1 env p d : no_index_error (phase1 env p d).
Proof.
  unfold phase1. induction attribute_files as [|n ns IH]; cbn [for_each]; [done|].
  apply no_index_error_bind; [|intros _; apply IH].
  eapply no_index_error_ext; [apply convert_network_into_binary_ensure|].
  apply no_index_error_bind; [apply no_index_error_ensure_dir|].
  intros _. apply no_index_error_call_subprocess.
Qed.

Lemma returns_bind {A B} (m : M A) (k : A -> M B) :
  returns m -> (forall a, returns (k a)) -> returns (bind m k).
Proof.
  intros Hm Hk s. unfold bind. destruct (Hm s) as [a Ha].
  destruct (m s) as [[a'|e] s1]; [apply Hk | done].
Qed.

Lemma returns_ext {A} (m1 m2 : M A) :
  (forall s, m1 s = m2 s) -> returns m2 -> returns m1.
Proof. intros Heq H s. rewrite Heq. apply H. Qed.

Lemma returns_ensure_dir env q : benign env -> returns (ensure_dir env q).
Proof.
  intros [_ Hmk] s. exists tt. destruct (fs s !! q) as [x|] eqn:Hlook.
  - by rewrite ensure_dir_present by (by rewrite Hlook).
  - rewrite ensure_dir_absent by done. by rewrite os_mkdir_created.
Qed.

Lemma returns_call_subprocess env args : benign env -> returns (call_subprocess env args).
Proof.
  intros [Hrun _] s. exists tt. destruct (Hrun args (fs s)) as (rc & fs' & Hs).
  by rewrite (call_subprocess_exited _ _ _ _ _ Hs).
Qed.

Lemma returns_phase1 env p d : benign env -> returns (phase1 env p d).
Proof.
  intros Henv. unfold phase1.
  induction attribute_files as [|n ns IH]; cbn [for_each]; [by exists tt|].
  apply returns_bind; [|intros _; apply IH].
  eapply returns_ext; [apply convert_network_into_binary_ensure|].
  apply returns_bind; [by apply returns_ensure_dir|].
  intros _. by apply returns_call_subprocess.
Qed.

Lemma creates_only_phase1 env p d : creates_only [d +:+ "/binary"] (phase1 env p d).
Proof.
  apply creates_only_for_each. intros n.
  eapply creates_only_ext; [apply convert_network_into_binary_ensure|].
  apply creates_only_bind; [|intros _; apply creates_only_call_subprocess].
  apply creates_only_ensure_dir. by left.
Qed.

Lemma two_arguments_outcome env prog p d s :
  main env [prog; p; d] s =
  match phase1 env p d s with
  | (Ok _, s1) => (Raise IndexError, s1)
  | (Raise e, s1) => (Raise e, s1)
  end.
Proof. reflexivity. Qed.

(** C10.  A missing third argument.  With two arguments only, nothing is
    checked up front: the script runs the loop of phase 1, and only then
    fails on [sys.argv[3]].  It never ends normally; the children it
    launches are a first part of the five conversions; the only directory
    it may create is [binary]; it ends on the index error exactly when the
    loop of phase 1 went through, and then all five conversions have been
    launched and have returned, and nothing of phase 2 has happened.  In a
    world where the tools start and directories can be created, that is how
    it ends. *)
Theorem missing_graph_name_fails_after_phase1 env prog p d s :
  exists evs,
    log (main env [prog; p; d] s).2 = log s ++ evs /\
    (main env [prog; p; d] s).1 <> Ok tt /\
    child_trace evs `prefix_of` phase1_schedule p d /\
    mkdirs evs ⊆ [d +:+ "/binary"] /\
    ((main env [prog; p; d] s).1 = Raise IndexError <->
     (phase1 env p d s).1 = Ok tt) /\
    ((main env [prog; p; d] s).1 = Raise IndexError ->
     child_trace evs = phase1_schedule p d /\
     launches evs = map (phase1_call p d) attribute_files) /\
    (benign env -> (main env [prog; p; d] s).1 = Raise IndexError).
Proof.
  rewrite two_arguments_outcome.
  destruct (follows_phase1 env p d s) as (evs & Hlog & Hsched).
  destruct (creates_only_phase1 env p d s) as (evs' & Hlog' & Hdirs).
  assert (evs' = evs) as -> by (rewrite Hlog in Hlog'; by apply app_inv_head in Hlog').
  pose proof (no_index_error_phase1 env p d s) as Hidx.
  assert (benign env -> exists a, (phase1 env p d s).1 = Ok a) as Hret
    by (intros Henv; apply (returns_phase1 env p d Henv s)).
  destruct (phase1 env p d s) as [[[]|e] s1]; cbn [fst snd on_schedule] in *;
    exists evs; (split; [done|]); (split; [done|]).
  - split; [by rewrite Hsched|]. split; [done|]. split; [done|].
    split; [|done]. intros _. split; [done|].
    by rewrite launches_child_trace, Hsched.
  - split; [done|]. split; [done|]. split; [|split].
    + split; [intros Heq; by rewrite Heq in Hidx | done].
    + intros Heq. by rewrite Heq in Hidx.
    + intros Henv. by destruct (Hret Henv) as [a Ha].
Qed.

(** ** Return codes *)

Lemma alike_emit evs s1 s2 : alike s1 s2 -> alike (emit evs s1) (emit evs s2).
Proof.
  intros [Hfs Hlog]. split; [done|]. cbn [emit log].
  by rewrite !fmap_app, Hlog.
Qed.

Lemma indifferent_bind {A B} (m1 m2 : M A) (k1 k2 : A -> M B) :
  indifferent m1 m2 -> (forall a, indifferent (k1 a) (k2 a)) ->
  indifferent (bind m1 k1) (bind m2 k2).
Proof.
  intros Hm Hk s1 s2 Hs. unfold bind. destruct (Hm s1 s2 Hs) as [Hr Hs'].
  destruct (m1 s1) as [[a1|e1] t1], (m2 s2) as [[a2|e2] t2];
    cbn [fst snd] in *; try discriminate.
  - injection Hr as ->. by apply Hk.
  - injection Hr as ->. by split.
Qed.

Lemma indifferent_ret {A} (a : A) : indifferent (ret a) (ret a).
Proof. intros s1 s2 Hs. by split. Qed.

Lemma indifferent_argv_at argv i : indifferent (argv_at argv i) (argv_at argv i).
Proof. intros s1 s2 Hs. unfold argv_at. by destruct (argv !! i). Qed.

Lemma indifferent_os_path_exists q :
  indifferent (os_path_exists q) (os_path_exists q).
Proof.
  intros s1 s2 Hs. unfold os_path_exists. cbn [fst snd].
  destruct Hs as [Hfs Hlog]. rewrite Hfs. by split.
Qed.

Lemma indifferent_os_mkdir f env q :
  indifferent (os_mkdir (with_returncodes f env) q) (os_mkdir env q).
Proof.
  intros s1 s2 Hs. pose proof (alike_emit [EMkdir q] _ _ Hs) as Hemit.
  destruct Hs as [Hfs Hlog]. unfold os_mkdir. cbn [mkdir_refused with_returncodes].
  rewrite Hfs. destruct (fs s2 !! q); [by split|].
  destruct (mkdir_refused env (fs s2) q); [by split|].
  split; [done|]. split; [done|]. apply Hemit.
Qed.

Lemma indifferent_call_subprocess f env args :
  indifferent (call_subprocess (with_returncodes f env) args)
              (call_subprocess env args).
Proof.
  intros s1 s2 [Hfs Hlog].
  destruct (spawn env args (fs s2)) as [rc fs'|e] eqn:Hrun.
  - rewrite (call_subprocess_exited env args s2 rc fs' Hrun).
    rewrite (call_subprocess_exited (with_returncodes f env) args s1
               (f args rc) fs') by (cbn [spawn with_returncodes]; by rewrite Hfs, Hrun).
    split; [done|]. split; [done|]. cbn [snd log].
    by rewrite !fmap_app, Hlog.
  - rewrite (call_subprocess_cannot_launch env args s2 e Hrun).
    rewrite (call_subprocess_cannot_launch (with_returncodes f env) args s1 e)
      by (cbn [spawn with_returncodes]; by rewrite Hfs, Hrun).
    split; [done|]. split; [done|]. cbn [snd log].
    by rewrite !fmap_app, Hlog.
Qed.

Lemma indifferent_for_each {A} (xs : list A) (body1 body2 : A -> M unit) :
  (forall x, indifferent (body1 x) (body2 x)) ->
  indifferent (for_each xs body1) (for_each xs body2).
Proof.
  intros Hbody. induction xs as [|x xs IH]; cbn [for_each].
  - apply indifferent_ret.
  - apply indifferent_bind; [apply Hbody | intros _; apply IH].
Qed.

Lemma indifferent_convert_network_into_binary f env p d n :
  indifferent (convert_network_into_binary (with_returncodes f env) p d n)
              (convert_network_into_binary env p d n).
Proof.
  unfold convert_network_into_binary.
  apply indifferent_bind; [apply indifferent_os_path_exists | intros present].
  apply indifferent_bind; [|intros _; apply indifferent_call_subprocess].
  destruct (negb present); [apply indifferent_os_mkdir | apply indifferent_ret].
Qed.

Lemma indifferent_compute_ordering f env p d g :
  indifferent (compute_ordering (with_returncodes f env) p d g)
              (compute_ordering env p d g).
Proof.
  unfold compute_ordering.
  apply indifferent_bind; [apply indifferent_os_path_exists | intros present].
  apply indifferent_bind; [|intros _; apply indifferent_call_subprocess].
  destruct (negb present); [apply indifferent_os_mkdir | apply indifferent_ret].
Qed.

Lemma indifferent_main f env argv :
  indifferent (main (with_returncodes f env) argv) (main env argv).
Proof.
  unfold main.
  apply indifferent_bind; [|intros _; apply indifferent_bind; [|intros _]].
  - apply indifferent_for_each. intros n.
    apply indifferent_bind; [apply indifferent_argv_at | intros a1].
    apply indifferent_bind; [apply indifferent_argv_at | intros a2].
    apply indifferent_convert_network_into_binary.
  - apply indifferent_bind; [apply indifferent_argv_at | intros a1].
    apply indifferent_bind; [apply indifferent_argv_at | intros a2].
    apply indifferent_bind; [apply indifferent_argv_at | intros a3].
    apply indifferent_compute_ordering.
  - apply indifferent_bind; [apply indifferent_argv_at | intros a1].
    apply indifferent_bind; [apply indifferent_argv_at | intros a2].
    apply indifferent_bind; [apply indifferent_argv_at | intros a3].
    apply indifferent_call_subprocess.
Qed.

(** C2.  The exit status is never inspected.  Replace the return code of
    every child by any other ([f] may turn success into failure and
    failure into success): the script ends with the same result, leaves
    the same file system, and has printed, created and launched the same
    things in the same order; only the return codes in the log differ.  And
    [call_subprocess] returns normally exactly when the child could be
    started, whatever its return code. *)
Theorem returncode_never_inspected env f argv s :
  (main (with_returncodes f env) argv s).1 = (main env argv s).1 /\
  fs (main (with_returncodes f env) argv s).2 = fs (main env argv s).2 /\
  forget_returncode <$> log (main (with_returncodes f env) argv s).2 =
    forget_returncode <$> log (main env argv s).2 /\
  (forall args,
     (call_subprocess env args s).1 = Ok tt <->
     exists rc fs', spawn env args (fs s) = Exited rc fs').
Proof.
  destruct (indifferent_main f env argv s s) as (Hr & Hfs & Hlog); [by split|].
  split; [done|]. split; [done|]. split; [done|].
  intros args. spawn_cases env args s.
  - split; [eauto | done].
  - split; [done | by intros (? & ? & ?)].
Qed.

(** ** Creating the directories *)

Lemma ensure_dir_frame env q s s1 q' :
  ensure_dir env q s = (Ok tt, s1) -> q' <> q -> fs s1 !! q' = fs s !! q'.
Proof.
  intros Hrun Hne. destruct (fs s !! q) as [x|] eqn:Hlook.
  - rewrite ensure_dir_present in Hrun by (by rewrite Hlook). by injection Hrun as <-.
  - rewrite ensure_dir_absent in Hrun by done. unfold os_mkdir in Hrun.
    rewrite Hlook in Hrun. destruct (mkdir_refused env (fs s) q); [done|].
    injection Hrun as <-. cbn [fs]. by apply lookup_insert_ne.
Qed.

(** C6.  Directory idempotence.  Once the directory block has gone through
    for a path, going through it again for the same path changes nothing
    and does not fail: the state, log included, is the same afterwards, so
    no creation is attempted the second time, and the two passes together
    attempt at most one creation.  The path exists from then on. *)
Theorem ensure_dir_idempotent env q s s1 :
  ensure_dir env q s = (Ok tt, s1) ->
  ensure_dir env q s1 = (Ok tt, s1) /\
  is_Some (fs s1 !! q) /\
  exists evs,
    log (ensure_dir env q s1).2 = log s ++ evs /\ (length (mkdirs evs) <= 1)%nat.
Proof.
  intros Hrun.
  assert (is_Some (fs s1 !! q) /\
          exists evs, log s1 = log s ++ evs /\ (length (mkdirs evs) <= 1)%nat)
    as [Hthere Hlog].
  { destruct (fs s !! q) as [x|] eqn:Hlook.
    - rewrite ensure_dir_present in Hrun by (by rewrite Hlook).
      injection Hrun as <-. split; [by rewrite Hlook|].
      exists []. split; [by rewrite app_nil_r | cbn; lia].
    - rewrite ensure_dir_absent in Hrun by done. unfold os_mkdir in Hrun.
      rewrite Hlook in Hrun. destruct (mkdir_refused env (fs s) q); [done|].
      injection Hrun as <-. cbn [fs log emit]. split.
      + rewrite lookup_insert_eq. by eexists.
      + exists [EMkdir q]. split; [done | cbn; lia]. }
  rewrite (ensure_dir_present env q s1 Hthere). by repeat split.
Qed.

Lemma ensure_dir_idempotent_witness :
  ensure_dir Worlds.stubbed "/graph/binary" Worlds.complete =
    (Ok tt, (ensure_dir Worlds.stubbed "/graph/binary" Worlds.complete).2) /\
  mkdirs (log (ensure_dir Worlds.stubbed "/graph/binary" Worlds.complete).2) =
    ["/graph/binary"] /\
  ensure_dir Worlds.stubbed "/graph/binary"
    (ensure_dir Worlds.stubbed "/graph/binary" Worlds.complete).2 =
    (Ok tt, (ensure_dir Worlds.stubbed "/graph/binary" Worlds.complete).2).
Proof.
  split; [vm_compute; reflexivity|]. split; [vm_compute; reflexivity|].
  apply (ensure_dir_idempotent Worlds.stubbed "/graph/binary" Worlds.complete).
  vm_compute. reflexivity.
Defined.

(** C7, as stated, at a concrete input: [/graph/binary] is taken by a
    regular file, and nothing fails.  The block finds the path taken and
    does nothing, the script never asks for [binary] to be created, and the
    pipeline runs to its end with all seven children launched. *)
Lemma collision_with_a_file_is_not_detected :
  fs Worlds.binary_is_a_file !! "/graph/binary" = Some File /\
  (ensure_dir Worlds.stubbed "/graph/binary" Worlds.binary_is_a_file).1 = Ok tt /\
  (main Worlds.stubbed Worlds.argv Worlds.binary_is_a_file).1 = Ok tt /\
  mkdirs (log (main Worlds.stubbed Worlds.argv Worlds.binary_is_a_file).2) =
    ["/graph/ordering"] /\
  child_trace (log (main Worlds.stubbed Worlds.argv Worlds.binary_is_a_file).2) =
    schedule "/tools" "/graph" "berlin" /\
  fs (main Worlds.stubbed Worlds.argv Worlds.binary_is_a_file).2 !! "/graph/binary" =
    Some File.
Proof. repeat split; vm_compute; reflexivity. Qed.

(** C7, amended.  When [os.mkdir] is called for a subdirectory and the
    kernel refuses, the error is the result of the whole script: for
    [binary] nothing else has happened but the one attempt, for [ordering]
    nothing else has happened since phase 1 but the one attempt; there is
    no second attempt and no child is launched afterwards.  When anything
    exists at the path, a directory or not, the block does nothing and
    does not fail. *)
Theorem mkdir_failure_aborts env prog p d g extra s :
  (forall e,
     fs s !! (d +:+ "/binary") = None ->
     mkdir_refused env (fs s) (d +:+ "/binary") = Some e ->
     main env (prog :: p :: d :: g :: extra) s =
       (Raise (OSError e (d +:+ "/binary")), emit [EMkdir (d +:+ "/binary")] s)) /\
  (forall e s1,
     phase1 env p d s = (Ok tt, s1) ->
     fs s1 !! (d +:+ "/ordering") = None ->
     mkdir_refused env (fs s1) (d +:+ "/ordering") = Some e ->
     main env (prog :: p :: d :: g :: extra) s =
       (Raise (OSError e (d +:+ "/ordering")), emit [EMkdir (d +:+ "/ordering")] s1)) /\
  (forall q x, fs s !! q = Some x -> ensure_dir env q s = (Ok tt, s)).
Proof.
  split; [|split].
  - intros e Hlook Href. rewrite main_three_arguments.
    apply bind_Raise. unfold phase1. cbn [attribute_files for_each].
    apply bind_Raise. rewrite convert_network_into_binary_ensure.
    apply bind_Raise. rewrite ensure_dir_absent by done.
    by apply os_mkdir_refused.
  - intros e s1 Hphase1 Hlook Href. rewrite main_three_arguments.
    rewrite (bind_Ok _ _ _ _ _ Hphase1).
    apply bind_Raise. rewrite compute_ordering_ensure.
    apply bind_Raise. rewrite ensure_dir_absent by done.
    by apply os_mkdir_refused.
  - intros q x Hlook. apply ensure_dir_present. by rewrite Hlook.
Qed.

Lemma mkdir_failure_aborts_witness :
  main Worlds.read_only Worlds.argv Worlds.complete =
    (Raise (OSError EACCES "/graph/binary"),
     emit [EMkdir "/graph/binary"] Worlds.complete) /\
  (main Worlds.ordering_refused Worlds.argv Worlds.complete).1 =
    Raise (OSError EACCES "/graph/ordering") /\
  ensure_dir Worlds.stubbed "/graph/binary" Worlds.binary_is_a_file =
    (Ok tt, Worlds.binary_is_a_file).
Proof.
  split; [|split].
  - apply (mkdir_failure_aborts Worlds.read_only "calculate_network_order.py"
             "/tools" "/graph" "berlin" [] Worlds.complete);
      vm_compute; reflexivity.
  - unfold Worlds.argv.
    rewrite (proj1 (proj2 (mkdir_failure_aborts Worlds.ordering_refused
               "calculate_network_order.py" "/tools" "/graph" "berlin" []
               Worlds.complete)) EACCES
               (phase1 Worlds.ordering_refused "/tools" "/graph" Worlds.complete).2);
      [reflexivity | vm_compute; reflexivity..].
  - apply (proj2 (proj2 (mkdir_failure_aborts Worlds.stubbed
             "calculate_network_order.py" "/tools" "/graph" "berlin" []
             Worlds.binary_is_a_file)) "/graph/binary" File).
    vm_compute. reflexivity.
Defined.

(** ** A converter that fails *)

(** C1, as stated, at a concrete input: [head] is missing, the converter
    is there and fails loudly on it with return code 1, and the pipeline
    does not stop: the four other conversions, the ordering and the final
    conversion are launched, [/graph/ordering] is created, and the script
    ends normally. *)
Lemma failed_converter_does_not_abort :
  fs Worlds.no_head !! "/graph/head" = None /\
  spawn Worlds.stubbed (phase1_call "/tools" "/graph" "head")
    (<["/graph/binary" := Dir]> (fs Worlds.no_head)) =
    Exited 1 (<["/graph/binary" := Dir]> (fs Worlds.no_head)) /\
  (main Worlds.stubbed Worlds.argv Worlds.no_head).1 = Ok tt /\
  take 4 (log (main Worlds.stubbed Worlds.argv Worlds.no_head).2) =
    [EMkdir "/graph/binary";
     EPrint "Call process:  /tools/build/console text_to_binary_vector /graph/head /graph/binary/head";
     EExec (phase1_call "/tools" "/graph" "head");
     EExit 1] /\
  child_trace (log (main Worlds.stubbed Worlds.argv Worlds.no_head).2) =
    schedule "/tools" "/graph" "berlin" /\
  mkdirs (log (main Worlds.stubbed Worlds.argv Worlds.no_head).2) =
    ["/graph/binary"; "/graph/ordering"] /\
  fs (main Worlds.stubbed Worlds.argv Worlds.no_head).2 !! "/graph/ordering" =
    Some Dir.
Proof. repeat split; vm_compute; reflexivity. Qed.

(** C1, amended.  Let the directory block of the first conversion go
    through.  If the converter cannot be started for [head], so that
    [subprocess.run] raises, the script ends there with that error: one
    child launched, phase 2 not begun, [ordering] as it was.  If the
    converter starts and exits, with whatever return code, the script goes
    on with the four other conversions, the ordering and the final
    conversion. *)
Theorem first_converter_failure env prog p d g extra s s1 :
  ensure_dir env (d +:+ "/binary") s = (Ok tt, s1) ->
  (forall e,
     spawn env (phase1_call p d "head") (fs s1) = CannotLaunch e ->
     main env (prog :: p :: d :: g :: extra) s =
       (Raise (OSError e (p +:+ "/build/console")),
        {| fs := fs s1;
           log := log s1 ++
             [EPrint (String.concat " " ("Call process: " :: phase1_call p d "head"));
              EExec (phase1_call p d "head")] |}) /\
     fs s1 !! (d +:+ "/ordering") = fs s !! (d +:+ "/ordering")) /\
  (forall rc fs',
     spawn env (phase1_call p d "head") (fs s1) = Exited rc fs' ->
     main env (prog :: p :: d :: g :: extra) s =
       (for_each ["travel_time"; "first_out"; "latitude"; "longitude"]
          (convert_network_into_binary env p d) ;;
        compute_ordering env p d g ;;
        convert_ordering_into_text env p d g)
       {| fs := fs';
          log := log s1 ++
            [EPrint (String.concat " " ("Call process: " :: phase1_call p d "head"));
             EExec (phase1_call p d "head"); EExit rc] |}).
Proof.
  intros Hdir. split.
  - intros e Hrun. split.
    + rewrite main_three_arguments. apply bind_Raise.
      unfold phase1. cbn [attribute_files for_each]. apply bind_Raise.
      rewrite convert_network_into_binary_ensure.
      rewrite (bind_Ok _ _ _ _ _ Hdir).
      by apply call_subprocess_cannot_launch.
    + apply (ensure_dir_frame _ _ _ _ _ Hdir).
      apply path_below_ne. discriminate.
  - intros rc fs' Hrun. rewrite main_three_arguments.
    unfold phase1. cbn [attribute_files for_each].
    assert (convert_network_into_binary env p d "head" s =
            (Ok tt, {| fs := fs';
               log := log s1 ++
                 [EPrint (String.concat " " ("Call process: " :: phase1_call p d "head"));
                  EExec (phase1_call p d "head"); EExit rc] |})) as Hhead.
    { rewrite convert_network_into_binary_ensure.
      rewrite (bind_Ok _ _ _ _ _ Hdir).
      by apply call_subprocess_exited. }
    rewrite bind_assoc. by rewrite (bind_Ok _ _ _ _ _ Hhead).
Qed.

Lemma first_converter_failure_witness :
  (ensure_dir Worlds.no_tools "/graph/binary" Worlds.complete =
     (Ok tt, (ensure_dir Worlds.no_tools "/graph/binary" Worlds.complete).2) /\
   spawn Worlds.no_tools (phase1_call "/tools" "/graph" "head")
     (fs (ensure_dir Worlds.no_tools "/graph/binary" Worlds.complete).2) =
     CannotLaunch ENOENT /\
   (main Worlds.no_tools Worlds.argv Worlds.complete).1 =
     Raise (OSError ENOENT "/tools/build/console") /\
   fs (main Worlds.no_tools Worlds.argv Worlds.complete).2 !! "/graph/ordering" =
     None) /\
  (ensure_dir Worlds.stubbed "/graph/binary" Worlds.no_head =
     (Ok tt, (ensure_dir Worlds.stubbed "/graph/binary" Worlds.no_head).2) /\
   spawn Worlds.stubbed (phase1_call "/tools" "/graph" "head")
     (fs (ensure_dir Worlds.stubbed "/graph/binary" Worlds.no_head).2) =
     Exited 1 (fs (ensure_dir Worlds.stubbed "/graph/binary" Worlds.no_head).2) /\
   (main Worlds.stubbed Worlds.argv Worlds.no_head).1 = Ok tt).
Proof.
  split.
  - split; [vm_compute; reflexivity|]. split; [vm_compute; reflexivity|].
    unfold Worlds.argv.
    destruct (proj1 (first_converter_failure Worlds.no_tools
                "calculate_network_order.py" "/tools" "/graph" "berlin" []
                Worlds.complete
                (ensure_dir Worlds.no_tools "/graph/binary" Worlds.complete).2
                ltac:(vm_compute; reflexivity)) ENOENT ltac:(vm_compute; reflexivity))
      as [-> _].
    split; vm_compute; reflexivity.
  - split; [vm_compute; reflexivity|]. split; [vm_compute; reflexivity|].
    unfold Worlds.argv.
    rewrite (proj2 (first_converter_failure Worlds.stubbed
               "calculate_network_order.py" "/tools" "/graph" "berlin" []
               Worlds.no_head
               (ensure_dir Worlds.stubbed "/graph/binary" Worlds.no_head).2
               ltac:(vm_compute; reflexivity)) 1%Z
               (fs (ensure_dir Worlds.stubbed "/graph/binary" Worlds.no_head).2)
               ltac:(vm_compute; reflexivity)).
    vm_compute. reflexivity.
Defined.

(** ** The scenarios of the specification, run *)

(** All five files present, both tools copying their input: seven children
    in order, both directories created, both order files written. *)
Example scenario_complete_run :
  (main Worlds.stubbed Worlds.argv Worlds.complete).1 = Ok tt /\
  child_trace (log (main Worlds.stubbed Worlds.argv Worlds.complete).2) =
    schedule "/tools" "/graph" "berlin" /\
  mkdirs (log (main Worlds.stubbed Worlds.argv Worlds.complete).2) =
    ["/graph/binary"; "/graph/ordering"] /\
  fs (main Worlds.stubbed Worlds.argv Worlds.complete).2 !! "/graph/ordering/berlin_bin" =
    Some File /\
  fs (main Worlds.stubbed Worlds.argv Worlds.complete).2 !! "/graph/ordering/berlin" =
    Some File.
Proof. repeat split; vm_compute; reflexivity. Qed.

(** No graph name given: the five conversions, then the index error. *)
Example scenario_two_arguments :
  (main Worlds.stubbed ["calculate_network_order.py"; "/tools"; "/graph"]
     Worlds.complete).1 = Raise IndexError /\
  launches (log (main Worlds.stubbed
                   ["calculate_network_order.py"; "/tools"; "/graph"]
                   Worlds.complete).2) =
    map (phase1_call "/tools" "/graph") attribute_files /\
  fs (main Worlds.stubbed ["calculate_network_order.py"; "/tools"; "/graph"]
        Worlds.complete).2 !! "/graph/ordering" = None.
Proof. repeat split; vm_compute; reflexivity. Qed.

(** ** Beyond the claims: what else the script does, and never does *)




Lemma traces_ensure_dir (P : list event -> Prop) env q :
  P [] -> P [EMkdir q] -> traces (ensure_dir env q) (fun _ => P).
Proof.
  intros Hnil Hmk s. destruct (fs s !! q) as [x|] eqn:Hlook.
  - rewrite ensure_dir_present by (by rewrite Hlook).
    exists []. split; [by rewrite app_nil_r | done].
  - rewrite ensure_dir_absent by done.
    exists [EMkdir q]. split; [|done].
    unfold os_mkdir. rewrite Hlook. by destruct (mkdir_refused env (fs s) q).
Qed.

Lemma traces_ext {A} (m1 m2 : M A) Q :
  (forall s, m1 s = m2 s) -> traces m2 Q -> traces m1 Q.
Proof. intros Heq H s. rewrite Heq. apply H. Qed.






(** X2.  Fewer than two arguments after the program name: the script
    fails on the index at once, before anything is created, printed or
    launched; the state is untouched. *)
Theorem too_few_arguments env argv s :
  (length argv <= 2)%nat -> main env argv s = (Raise IndexError, s).
Proof.
  intros Hlen. destruct argv as [|prog [|p [|d argv]]];
    cbn [length] in Hlen; try lia; reflexivity.
Qed.

Lemma too_few_arguments_witness :
  (length ["calculate_network_order.py"; "/tools"] <= 2)%nat /\
  main Worlds.stubbed ["calculate_network_order.py"; "/tools"] Worlds.complete =
    (Raise IndexError, Worlds.complete).
Proof.
  split; [cbn; lia|].
  apply (too_few_arguments Worlds.stubbed
           ["calculate_network_order.py"; "/tools"] Worlds.complete).
  cbn. lia.
Defined.

Lemma no_index_error_main env prog p d g extra :
  no_index_error (main env (prog :: p :: d :: g :: extra)).
Proof.
  rewrite main_three_arguments.
  apply no_index_error_bind; [apply no_index_error_phase1 | intros _].
  apply no_index_error_bind; [|intros _; apply no_index_error_call_subprocess].
  eapply no_index_error_ext; [apply compute_ordering_ensure|].
  apply no_index_error_bind; [apply no_index_error_ensure_dir|].
  intros _. apply no_index_error_call_subprocess.
Qed.

(** X3.  The index error is the mark of a missing argument and of nothing
    else: a run that ends on it was given at most two arguments after the
    program name.  With three or more, whatever the tools and the file
    system do, the script never fails on an index. *)
Theorem index_error_only_without_graph_name env argv s :
  (main env argv s).1 = Raise IndexError -> (length argv <= 3)%nat.
Proof.
  intros Hidx. destruct argv as [|prog [|p [|d [|g extra]]]]; cbn [length]; try lia.
  by apply no_index_error_main in Hidx.
Qed.

Lemma index_error_only_without_graph_name_witness :
  (main Worlds.stubbed ["calculate_network_order.py"; "/tools"; "/graph"]
     Worlds.complete).1 = Raise IndexError /\
  (length ["calculate_network_order.py"; "/tools"; "/graph"] <= 3)%nat.
Proof.
  split; [vm_compute; reflexivity|].
  apply (index_error_only_without_graph_name Worlds.stubbed
           ["calculate_network_order.py"; "/tools"; "/graph"] Worlds.complete).
  vm_compute. reflexivity.
Defined.

Lemma failure_is_last_bind {A B} (m : M A) (k : A -> M B) :
  traces m failure_is_last -> (forall a, traces (k a) failure_is_last) ->
  traces (bind m k) failure_is_last.
Proof.
  intros Hm Hk.
  apply (traces_bind m k failure_is_last (fun _ => failure_is_last));
    [done|done|done|].
  intros a evs1 [b|[|e q]] evs2 _ H2; cbn [failure_is_last] in *; [done|done|].
  rewrite last_app. destruct H2 as [->|(args & -> & Hq)]; [by left|].
  right. by exists args.
Qed.

Lemma failure_is_last_ensure_dir env q : traces (ensure_dir env q) failure_is_last.
Proof.
  intros s. destruct (fs s !! q) as [x|] eqn:Hlook.
  - rewrite ensure_dir_present by (by rewrite Hlook).
    exists []. split; [by rewrite app_nil_r | done].
  - rewrite ensure_dir_absent by done. exists [EMkdir q].
    unfold os_mkdir. rewrite Hlook.
    destruct (mkdir_refused env (fs s) q); (split; [done|]); [by left | done].
Qed.

Lemma failure_is_last_call_subprocess env args :
  traces (call_subprocess env args) failure_is_last.
Proof.
  intros s. spawn_cases env args s; eexists; (split; [reflexivity|]); [done|].
  right. by exists args.
Qed.

Lemma failure_is_last_phase1 env p d : traces (phase1 env p d) failure_is_last.
Proof.
  unfold phase1. induction attribute_files as [|n ns IH]; cbn [for_each].
  - intros s. exists []. split; [by rewrite app_nil_r | done].
  - apply failure_is_last_bind; [|intros _; apply IH].
    eapply traces_ext; [apply convert_network_into_binary_ensure|].
    apply failure_is_last_bind; [apply failure_is_last_ensure_dir|].
    intros _. apply failure_is_last_call_subprocess.
Qed.

Lemma failure_is_last_main env prog p d g extra :
  traces (main env (prog :: p :: d :: g :: extra)) failure_is_last.
Proof.
  rewrite main_three_arguments.
  apply failure_is_last_bind; [apply failure_is_last_phase1 | intros _].
  apply failure_is_last_bind; [|intros _; apply failure_is_last_call_subprocess].
  eapply traces_ext; [apply compute_ordering_ensure|].
  apply failure_is_last_bind; [apply failure_is_last_ensure_dir|].
  intros _. apply failure_is_last_call_subprocess.
Qed.

Lemma elem_of_mkdirs q evs : EMkdir q ∈ evs -> q ∈ mkdirs evs.
Proof.
  induction evs as [|ev evs IH]; [by intros ?%elem_of_nil|].
  intros [<-|Hin]%elem_of_cons; [by left|].
  destruct ev; cbn [mkdirs]; auto. right. auto.
Qed.

Lemma elem_of_launches args evs : EExec args ∈ evs -> args ∈ launches evs.
Proof.
  induction evs as [|ev evs IH]; [by intros ?%elem_of_nil|].
  intros [<-|Hin]%elem_of_cons; [by left|].
  destruct ev; cbn [launches]; auto. right. auto.
Qed.

(** X4.  Nothing happens after a failure.  When a run with its three
    arguments ends on an [OSError], the last event of the run is the
    operation that failed, and the error names it: either the creation of
    [binary] or [ordering], or the launch of the converter or of the
    interpreter.  No second attempt, no cleanup, no further child. *)
Theorem os_error_ends_the_run env prog p d g extra s e q :
  (main env (prog :: p :: d :: g :: extra) s).1 = Raise (OSError e q) ->
  exists evs,
    log (main env (prog :: p :: d :: g :: extra) s).2 = log s ++ evs /\
    ((last evs = Some (EMkdir q) /\
      q ∈ [d +:+ "/binary"; d +:+ "/ordering"]) \/
     (exists args,
        last evs = Some (EExec args) /\ hd "" args = q /\
        q ∈ [p +:+ "/build/console"; "python3"])).
Proof.
  intros Hraise.
  destruct (failure_is_last_main env prog p d g extra s) as (evs & Hlog & Hlast).
  destruct (creates_only_main env prog p d g extra s) as (evs1 & Hlog1 & Hdirs).
  assert (evs1 = evs) as -> by (rewrite Hlog in Hlog1; by apply app_inv_head in Hlog1).
  destruct (follows_launches _ _ s (follows_main env prog p d g extra))
    as (evs2 & Hlog2 & Hpre & _).
  assert (evs2 = evs) as -> by (rewrite Hlog in Hlog2; by apply app_inv_head in Hlog2).
  rewrite Hraise in Hlast. cbn [failure_is_last] in Hlast.
  exists evs. split; [done|].
  destruct Hlast as [Hmk|(args & Hexec & Hq)].
  - left. split; [done|]. apply Hdirs, elem_of_mkdirs.
    by apply last_Some_elem_of.
  - right. exists args. split; [done|]. split; [done|].
    apply last_Some_elem_of, elem_of_launches in Hexec.
    apply (elem_of_prefix _ _ _ Hexec) in Hpre.
    cbn in Hpre. rewrite !elem_of_cons in Hpre. rewrite <- Hq.
    destruct Hpre as [->|[->|[->|[->|[->|[->|[->|Hnil]]]]]]];
      [..|by apply elem_of_nil in Hnil]; cbn [hd phase1_call phase2_call
        phase3_call spec_converter_invocation spec_ordering_invocation];
      rewrite !elem_of_cons; auto.
Qed.

Lemma os_error_ends_the_run_witness :
  (main Worlds.no_tools Worlds.argv Worlds.complete).1 =
    Raise (OSError ENOENT "/tools/build/console") /\
  exists evs,
    log (main Worlds.no_tools Worlds.argv Worlds.complete).2 =
      log Worlds.complete ++ evs /\
    ((last evs = Some (EMkdir "/tools/build/console") /\
      "/tools/build/console" ∈ ["/graph" +:+ "/binary"; "/graph" +:+ "/ordering"]) \/
     (exists args,
        last evs = Some (EExec args) /\ hd "" args = "/tools/build/console" /\
        "/tools/build/console" ∈ ["/tools" +:+ "/build/console"; "python3"])).
Proof.
  split; [vm_compute; reflexivity|].
  apply (os_error_ends_the_run Worlds.no_tools "calculate_network_order.py"
           "/tools" "/graph" "berlin" [] Worlds.complete ENOENT
           "/tools/build/console").
  vm_compute. reflexivity.
Defined.

(** *** What the script itself changes in the file system *)










(** *** Tools that start *)




(** *** The directory is there when the tool starts *)


(** *** How often the directories are created *)

Lemma binary_not_ordering (d : string) : d +:+ "/binary" <> d +:+ "/ordering".
Proof. apply path_below_ne. discriminate. Qed.

(** One conversion: it asks for [binary] exactly when [binary] is missing,
    and with tools that keep [binary] it is there when the conversion
    returns. *)
Lemma convert_network_into_binary_mkdirs env p d n s :
  exists evs,
    log (convert_network_into_binary env p d n s).2 = log s ++ evs /\
    ((is_Some (fs s !! (d +:+ "/binary")) /\ mkdirs evs = []) \/
     (fs s !! (d +:+ "/binary") = None /\ mkdirs evs = [d +:+ "/binary"])) /\
    (keeps env (d +:+ "/binary") ->
     (convert_network_into_binary env p d n s).1 = Ok tt ->
     is_Some (fs (convert_network_into_binary env p d n s).2 !! (d +:+ "/binary"))).
Proof.
  rewrite convert_network_into_binary_ensure.
  destruct (fs s !! (d +:+ "/binary")) as [x|] eqn:Hlook.
  - rewrite (bind_Ok _ _ s tt s)
      by (apply ensure_dir_present; by rewrite Hlook).
    spawn_cases env (phase1_call p d n) s; eexists;
      (split; [reflexivity|]); (split; [left; by split|]); [|done].
    intros Hkeep _. cbn [snd fs]. apply (Hkeep _ _ _ _ Hrun). by rewrite Hlook.
  - destruct (mkdir_refused env (fs s) (d +:+ "/binary")) as [e|] eqn:Href.
    + rewrite (bind_Raise _ _ s (OSError e (d +:+ "/binary"))
                 (emit [EMkdir (d +:+ "/binary")] s))
        by (rewrite ensure_dir_absent by done; by apply os_mkdir_refused).
      exists [EMkdir (d +:+ "/binary")]. split; [done|]. split; [by right | done].
    + rewrite (bind_Ok _ _ s tt
                 {| fs := <[d +:+ "/binary" := Dir]> (fs s);
                    log := log s ++ [EMkdir (d +:+ "/binary")] |})
        by (rewrite ensure_dir_absent by done; by apply os_mkdir_created).
      match goal with |- context [call_subprocess env ?a ?st] =>
        spawn_cases env a st end; cbn [fs log snd fst] in *.
      * eexists. split; [by rewrite <- app_assoc|]. split; [by right|].
        intros Hkeep _. apply (Hkeep _ _ _ _ Hrun).
        rewrite lookup_insert_eq. by eexists.
      * eexists. split; [by rewrite <- app_assoc|]. split; [by right | done].
Qed.

(** The loop: with tools that keep [binary], it asks for [binary] at most
    once, and only if [binary] was missing when the loop began. *)
Lemma for_each_binary_once env p d ns s :
  keeps env (d +:+ "/binary") ->
  exists evs,
    log (for_each ns (convert_network_into_binary env p d) s).2 = log s ++ evs /\
    (mkdirs evs = [] \/
     (fs s !! (d +:+ "/binary") = None /\ mkdirs evs = [d +:+ "/binary"])).
Proof.
  intros Hkeep. revert s. induction ns as [|n ns IH]; intros s; cbn [for_each].
  - exists []. split; [by rewrite app_nil_r | by left].
  - destruct (convert_network_into_binary_mkdirs env p d n s)
      as (evs1 & Hlog1 & Hmk1 & Hthere).
    specialize (Hthere Hkeep). unfold bind.
    destruct (convert_network_into_binary env p d n s) as [[[]|e] s1];
      cbn [fst snd] in *.
    + destruct (IH s1) as (evs2 & Hlog2 & Hmk2).
      assert (mkdirs evs2 = []) as Hnil.
      { destruct Hmk2 as [?|[Hnone _]]; [done|].
        destruct (Hthere eq_refl) as [x Hx]. congruence. }
      exists (evs1 ++ evs2). split; [by rewrite Hlog2, Hlog1, app_assoc|].
      rewrite mkdirs_app, Hnil, app_nil_r.
      destruct Hmk1 as [[_ ?]|[? ?]]; [by left | by right].
    + exists evs1. split; [done|].
      destruct Hmk1 as [[_ ?]|[? ?]]; [by left | by right].
Qed.

Lemma ordering_mkdirs env p d g :
  traces (compute_ordering env p d g ;; convert_ordering_into_text env p d g)
    (fun _ evs => mkdirs evs = [] \/ mkdirs evs = [d +:+ "/ordering"]).
Proof.
  apply (traces_bind _ _
           (fun _ evs => mkdirs evs = [] \/ mkdirs evs = [d +:+ "/ordering"])
           (fun _ _ evs => mkdirs evs = [])); [|intros _|done|].
  - eapply traces_ext; [apply compute_ordering_ensure|].
    apply (traces_bind _ _
             (fun _ evs => mkdirs evs = [] \/ mkdirs evs = [d +:+ "/ordering"])
             (fun _ _ evs => mkdirs evs = [])); [|intros _|done|].
    + apply traces_ensure_dir; [by left | by right].
    + intros s. spawn_cases env (phase2_call p d g) s; eexists; by split.
    + intros _ evs1 _ evs2 H1 H2. by rewrite mkdirs_app, H2, app_nil_r.
  - rewrite convert_ordering_into_text_call.
    intros s. spawn_cases env (phase3_call p d g) s; eexists; by split.
  - intros _ evs1 _ evs2 H1 H2. by rewrite mkdirs_app, H2, app_nil_r.
Qed.

(** X6.  Each directory is created at most once.  With tools that do not
    remove [binary], a run asks the kernel for at most two directories:
    [binary], at most once and only if it was missing at the start, then
    [ordering], at most once. *)
Theorem each_directory_created_at_most_once env prog p d g extra s :
  keeps env (d +:+ "/binary") ->
  exists evs,
    log (main env (prog :: p :: d :: g :: extra) s).2 = log s ++ evs /\
    mkdirs evs `sublist_of` [d +:+ "/binary"; d +:+ "/ordering"] /\
    (is_Some (fs s !! (d +:+ "/binary")) -> d +:+ "/binary" ∉ mkdirs evs).
Proof.
  intros Hkeep. rewrite main_three_arguments. unfold phase1.
  destruct (for_each_binary_once env p d attribute_files s Hkeep)
    as (evs1 & Hlog1 & Hmk1).
  unfold bind at 1.
  destruct (for_each attribute_files (convert_network_into_binary env p d) s)
    as [[[]|e] s1]; cbn [fst snd] in *.
  - destruct (ordering_mkdirs env p d g s1) as (evs2 & Hlog2 & Hmk2).
    exists (evs1 ++ evs2). split; [by rewrite Hlog2, Hlog1, app_assoc|].
    rewrite mkdirs_app. split.
    + destruct Hmk1 as [->|[_ ->]], Hmk2 as [-> | ->]; cbn [app].
      * apply sublist_nil_l.
      * apply sublist_cons, sublist_skip, sublist_nil_l.
      * apply sublist_skip, sublist_nil_l.
      * reflexivity.
    + intros [x Hx]. destruct Hmk1 as [->|[Hnone _]]; [|congruence].
      destruct Hmk2 as [->| ->]; cbn [app]; [apply not_elem_of_nil|].
      rewrite not_elem_of_cons. split; [apply binary_not_ordering|].
      apply not_elem_of_nil.
  - exists evs1. split; [done|]. split.
    + destruct Hmk1 as [->|[_ ->]]; [apply sublist_nil_l|].
      apply sublist_skip, sublist_nil_l.
    + intros [x Hx]. destruct Hmk1 as [->|[Hnone _]]; [|congruence].
      apply not_elem_of_nil.
Qed.

Lemma each_directory_created_at_most_once_witness :
  keeps Worlds.dry_run ("/graph" +:+ "/binary") /\
  exists evs,
    log (main Worlds.dry_run Worlds.argv Worlds.complete).2 =
      log Worlds.complete ++ evs /\
    mkdirs evs `sublist_of` ["/graph" +:+ "/binary"; "/graph" +:+ "/ordering"] /\
    (is_Some (fs Worlds.complete !! ("/graph" +:+ "/binary")) ->
     "/graph" +:+ "/binary" ∉ mkdirs evs).
Proof.
  assert (keeps Worlds.dry_run ("/graph" +:+ "/binary")) as Hkeep.
  { intros args fs0 rc fs' Hrun. cbn in Hrun. by injection Hrun as _ <-. }
  split; [exact Hkeep|].
  apply (each_directory_created_at_most_once Worlds.dry_run
           "calculate_network_order.py" "/tools" "/graph" "berlin" []
           Worlds.complete Hkeep).
Defined.

(** Why the tools must keep [binary] for that: with tools that remove it,
    every conversion of the loop finds it missing and creates it again. *)
Example binary_created_five_times :
  mkdirs (log (main Worlds.binary_eater Worlds.argv Worlds.complete).2) =
    ["/graph/binary"; "/graph/binary"; "/graph/binary"; "/graph/binary";
     "/graph/binary"; "/graph/ordering"].
Proof. vm_compute. reflexivity. Qed.

(** *** The outputs do not collide, and the phases are chained *)





(** X10.  The phases are chained.  In a run that returns normally, the
    launches are five conversions followed by the ordering and the final
    conversion, such that: each conversion reads an attribute file
    [d + "/" + n] and writes [n] below the very directory the ordering is
    pointed at, and the final conversion reads the very file the ordering
    was told to write. *)
Theorem phases_are_chained env prog p d g extra s :
  (main env (prog :: p :: d :: g :: extra) s).1 = Ok tt ->
  exists evs conversions ordering final binary_dir order_file,
    log (main env (prog :: p :: d :: g :: extra) s).2 = log s ++ evs /\
    launches evs = conversions ++ [ordering; final] /\
    length conversions = 5%nat /\
    ordering !! 2%nat = Some binary_dir /\
    ordering !! 3%nat = Some order_file /\
    final !! 2%nat = Some order_file /\
    (forall c, c ∈ conversions ->
       exists n, n ∈ attribute_files /\
                 c !! 2%nat = Some ((d +:+ "/") +:+ n) /\
                 c !! 3%nat = Some (binary_dir +:+ n)).
Proof.
  intros Hok.
  destruct (follows_launches _ _ s (follows_main env prog p d g extra))
    as (evs & Hlog & _ & Hall).
  exists evs, (map (phase1_call p d) attribute_files),
    (phase2_call p d g), (phase3_call p d g),
    (d +:+ "/binary/"), (((d +:+ "/ordering/") +:+ g) +:+ "_bin").
  split; [done|]. split; [by rewrite (Hall tt Hok)|].
  do 4 (split; [reflexivity|]).
  intros c Hc. apply list_elem_of_In, in_map_iff in Hc as (n & <- & Hn).
  exists n. split; [by apply list_elem_of_In | by split].
Qed.

Lemma phases_are_chained_witness :
  (main Worlds.stubbed Worlds.argv Worlds.complete).1 = Ok tt /\
  exists evs conversions ordering final binary_dir order_file,
    log (main Worlds.stubbed Worlds.argv Worlds.complete).2 =
      log Worlds.complete ++ evs /\
    launches evs = conversions ++ [ordering; final] /\
    length conversions = 5%nat /\
    ordering !! 2%nat = Some binary_dir /\
    ordering !! 3%nat = Some order_file /\
    final !! 2%nat = Some order_file /\
    (forall c, c ∈ conversions ->
       exists n, n ∈ attribute_files /\
                 c !! 2%nat = Some (("/graph" +:+ "/") +:+ n) /\
                 c !! 3%nat = Some (binary_dir +:+ n)).
Proof.
  split; [vm_compute; reflexivity|].
  apply (phases_are_chained Worlds.stubbed "calculate_network_order.py"
           "/tools" "/graph" "berlin" [] Worlds.complete).
  vm_compute. reflexivity.
Defined.
